(** * fastapi-tasks: TTL cache, cache-aside read path, rate limiter, notifications

  A shallow embedding of [cache.py], [rate_limiter.py] and
  [notiifcation.py].

  - Python values are the inductive [pyval]; [None] is a value like any
    other, exactly as in the source, where [Cache.get] answers [None] both
    for a miss and for a stored [None].
  - A [datetime] is a count of microseconds in [Z], counted from
    [datetime.min]; [timedelta(seconds=n)] is [n * 1000000].  The range
    limits of [datetime] and [timedelta] are [datetime_in_range] and
    [timedelta_in_range]; [Cache.set_checked] is [Cache.set] with the
    [OverflowError] that leaving them raises.
  - Every reading of the clock ([datetime.utcnow()], [datetime.now()]) is an
    explicit argument of the operation that performs it.
  - The dictionaries [Cache._store] and [RateLimiter.requests] are finite
    maps with string keys; mutation is explicit state passing.
  - A raised exception is the [Raise] case of [result]. *)

From Stdlib Require Import ZArith String List Lia QArith.
From stdpp Require Import base option gmap strings pretty.

Local Open Scope Z_scope.
Local Set Warnings "-register-all".

(** ** Python values, exceptions and results *)

Module Py.

Inductive pyval : Type :=
| PyNone
| PyBool (b : bool)
| PyInt (n : Z)
| PyFloat (x : Q)
| PyStr (s : string)
| PyDict (items : list (string * pyval))
| PyModel (cls : string) (fields : list (string * pyval)).

Inductive exn : Type :=
| TypeError (msg : string)
| KeyError (key : string)
| OverflowError (msg : string)
| AttributeError (msg : string)
| HTTPException (status_code : Z) (detail : string).

Inductive result (A : Type) : Type :=
| Ok (a : A)
| Raise (e : exn).

Arguments Ok {A} a.
Arguments Raise {A} e.

(** [x is not None] *)
Definition is_not_none (x : pyval) : bool :=
  match x with
  | PyNone => false
  | _ => true
  end.

(** [d[k] = v] on a dict with string keys: an existing key keeps its
    position, a new key goes last. *)
Fixpoint dict_setitem (d : list (string * pyval)) (k : string) (v : pyval)
  : list (string * pyval) :=
  match d with
  | [] => [(k, v)]
  | (k', v') :: rest =>
      if String.eqb k' k then (k', v) :: rest
      else (k', v') :: dict_setitem rest k v
  end.

Fixpoint dict_get (d : list (string * pyval)) (k : string) : option pyval :=
  match d with
  | [] => None
  | (k', v') :: rest => if String.eqb k' k then Some v' else dict_get rest k
  end.

(** [{**x, k: v}]: [x] has to be a mapping. *)
Definition dict_unpack_with (x : pyval) (k : string) (v : pyval) : result pyval :=
  match x with
  | PyDict items => Ok (PyDict (dict_setitem items k v))
  | _ => Raise (TypeError "object is not a mapping")
  end.

(** [x[k]] for a string [k].  A dict looks the key up; a pydantic
    [BaseModel] instance, like every other value here, has no
    [__getitem__] taking a string. *)
Definition getitem (x : pyval) (k : string) : result pyval :=
  match x with
  | PyDict items =>
      match dict_get items k with
      | Some v => Ok v
      | None => Raise (KeyError k)
      end
  | PyStr _ => Raise (TypeError "string indices must be integers")
  | _ => Raise (TypeError "object is not subscriptable")
  end.

(** [timedelta(seconds=n)], in microseconds. *)
Definition timedelta (seconds : Z) : Z := seconds * 1000000.

(** [datetime.max], in microseconds from [datetime.min]: the last
    microsecond of the 3652059 days from 0001-01-01 to 9999-12-31. *)
Definition datetime_max : Z := 3652059 * 86400 * 1000000 - 1.

(** The instants a [datetime] can hold. *)
Definition datetime_in_range (t : Z) : bool :=
  (0 <=? t) && (t <=? datetime_max).

(** The whole numbers of seconds a [timedelta] can hold: at most 999999999
    days either way, the days being [seconds // 86400]. *)
Definition timedelta_in_range (seconds : Z) : bool :=
  (-999999999 <=? seconds / 86400) && (seconds / 86400 <=? 999999999).

End Py.

Import Py.

(** ** cache.py: the [Cache] class *)

Module Cache.

(** [key -> (value, expires_at: Optional[datetime])] *)
Abbreviation entry := (pyval * option Z)%type.

Abbreviation store := (gmap string entry).

(** [Cache()] *)
Definition init : store := ∅.

(** [set(key, value, ttl=None)] when the arithmetic of its second line
    stays in range; [now] is the reading of [datetime.utcnow()], used only
    when a TTL is given. *)
Definition set (s : store) (key : string) (value : pyval)
    (ttl : option Z) (now : Z) : store :=
  let expires_at :=
    match ttl with
    | Some t => Some (now + timedelta t)
    | None => None
    end in
  <[key := (value, expires_at)]> s.

(** [set(key, value, ttl=None)] in full: [timedelta(seconds=ttl)] and the
    addition to [datetime.utcnow()] raise [OverflowError] out of range, and
    then nothing is stored. *)
Definition set_checked (s : store) (key : string) (value : pyval)
    (ttl : option Z) (now : Z) : result unit * store :=
  match ttl with
  | Some t =>
      if timedelta_in_range t && datetime_in_range (now + timedelta t) then
        (Ok tt, set s key value ttl now)
      else
        (Raise (OverflowError "date value out of range"), s)
  | None => (Ok tt, set s key value ttl now)
  end.

(** [delete(key)]: [self._store.pop(key, None)] *)
Definition delete (s : store) (key : string) : store := base.delete key s.

(** [get(key)]: the returned value and the store it leaves.  A stored
    entry is a 2-tuple, hence truthy, so [if not entry] is taken exactly
    when the key is missing. *)
Definition get (s : store) (key : string) (now : Z) : pyval * store :=
  match s !! key with
  | None => (PyNone, s)
  | Some (value, expires_at) =>
      match expires_at with
      | Some e =>
          if now >? e then (PyNone, delete s key) else (value, s)
      | None => (value, s)
      end
  end.

(** [clear()] *)
Definition clear (s : store) : store := ∅.

End Cache.

(** ** Handlers: state and exceptions threaded together *)

Module Handler.

(** A computation over a state [S] that returns an [A] or raises.  A raised
    exception keeps the state reached so far. *)
Definition M (S A : Type) : Type := S -> result A * S.

Definition ret {S A} (a : A) : M S A := fun s => (Ok a, s).

Definition raise {S A} (e : exn) : M S A := fun s => (Raise e, s).

Definition bind {S A B} (m : M S A) (f : A -> M S B) : M S B :=
  fun s =>
    match m s with
    | (Ok a, s') => f a s'
    | (Raise e, s') => (Raise e, s')
    end.

Definition lift {S A} (r : result A) : M S A := fun s => (r, s).

End Handler.

Import Handler.

Notation "x <- m ;; f" := (bind m (fun x => f))
  (at level 100, m at next level, right associativity).

(** ** cache.py: the application around the cache *)

(** What a handler does to its collaborators, in call order. *)
Inductive event : Type :=
| EvGet (key : string)
| EvSet (key : string) (value : pyval) (ttl : option Z)
| EvClear
| EvFetch (product_id : Z).

(** [cache_instance], the one cache of the process, with the calls made so
    far. *)
Record app : Type := mkApp {
  cache_instance : Cache.store;
  trace : list event
}.

Definition cache_get (key : string) (now : Z) : M app pyval :=
  fun w =>
    let '(value, s') := Cache.get (cache_instance w) key now in
    (Ok value, mkApp s' (trace w ++ [EvGet key])).

Definition cache_set (key : string) (value : pyval) (ttl : option Z) (now : Z)
  : M app unit :=
  fun w =>
    (Ok tt, mkApp (Cache.set (cache_instance w) key value ttl now)
                  (trace w ++ [EvSet key value ttl])).

Definition cache_clear : M app unit :=
  fun w => (Ok tt, mkApp (Cache.clear (cache_instance w)) (trace w ++ [EvClear])).

(** [f"product:{product_id}"] *)
Definition cache_key (product_id : Z) : string := "product:" +:+ pretty product_id.

Section Producer.

(** [round(100 + product_id * 1.5, 2)]: binary64 arithmetic, left abstract.
    It raises [OverflowError] when [product_id] is too large for a float. *)
Variable price : Z -> result pyval.

(** [fetch_product_from_source(product_id)]; the second of simulated delay
    shows as the distance between the clock readings of [get_product]. *)
Definition fetch_product_from_source (product_id : Z) : result pyval :=
  match price product_id with
  | Ok p =>
      Ok (PyDict [("id", PyInt product_id);
                  ("name", PyStr ("Product " +:+ pretty product_id));
                  ("price", p);
                  ("source", PyStr "database")])
  | Raise e => Raise e
  end.

Definition fetch (product_id : Z) : M app pyval :=
  fun w =>
    (fetch_product_from_source product_id,
     mkApp (cache_instance w) (trace w ++ [EvFetch product_id])).

(** [GET /products/{product_id}].  [t_get] is the clock at [cache.get],
    [t_set] the clock at [cache.set], after the fetch. *)
Definition get_product (product_id : Z) (t_get t_set : Z) : M app pyval :=
  let key := cache_key product_id in
  cached <- cache_get key t_get ;;
  if is_not_none cached then
    lift (dict_unpack_with cached "from_cache" (PyBool true))
  else
    product <- fetch product_id ;;
    _ <- cache_set key product (Some 30) t_set ;;
    lift (dict_unpack_with product "from_cache" (PyBool false)).

End Producer.

(** [POST /cache/clear] *)
Definition clear_cache : M app pyval :=
  _ <- cache_clear ;;
  ret (PyDict [("detail", PyStr "Cache cleared")]).

(** ** rate_limiter.py *)

Module RateLimiter.

(** [ip -> (count, window_start)] *)
Abbreviation table := (gmap string (Z * Z)).

Record t : Type := mk {
  limit : Z;
  window : Z;
  requests : table
}.

(** [RateLimiter(limit, window_seconds)] *)
Definition init (limit window_seconds : Z) : t :=
  mk limit (timedelta window_seconds) ∅.

Definition with_requests (self : t) (r : table) : t :=
  mk (limit self) (window self) r.

(** [check(request)], with [client_ip = request.client.host] and [now] the
    reading of [datetime.now()]. *)
Definition check (client_ip : string) (now : Z) : M t unit :=
  fun self =>
    match requests self !! client_ip with
    | None =>
        (Ok tt, with_requests self (<[client_ip := (1, now)]> (requests self)))
    | Some (count, window_start) =>
        let elapsed := now - window_start in
        if elapsed >=? window self then
          (Ok tt, with_requests self (<[client_ip := (1, now)]> (requests self)))
        else if count >=? limit self then
          raise (HTTPException 429 "Rate limit exceeded") self
        else
          (Ok tt, with_requests self
                    (<[client_ip := (count + 1, window_start)]> (requests self)))
    end.

(** [check(request)] from the request itself: [request.client] is [None]
    when the server knows no client address, and [.host] then raises. *)
Definition check_request (client : option string) (now : Z) : M t unit :=
  match client with
  | Some client_ip => check client_ip now
  | None => raise (AttributeError "'NoneType' object has no attribute 'host'")
  end.

End RateLimiter.

(** [rate_limiter = RateLimiter(limit=10, window_seconds=60)] *)
Definition rate_limiter : RateLimiter.t := RateLimiter.init 10 60.

(** [GET /ping] *)
Definition ping : pyval := PyDict [("message", PyStr "pong")].

(** A computation on one half of a paired state. *)
Definition on_fst {S T A} (m : M S A) : M (S * T) A :=
  fun st => let '(r, s') := m (fst st) in (r, (s', snd st)).

Definition on_snd {S T A} (m : M T A) : M (S * T) A :=
  fun st => let '(r, t') := m (snd st) in (r, (fst st, t')).

(** [rate_limit_middleware(request, call_next)]: the check, then the
    handler chain.  The state pairs the limiter with the state [S] of the
    handlers behind the middleware. *)
Definition rate_limit_middleware {S : Type} (client_ip : string) (now : Z)
    (call_next : M S pyval) : M (RateLimiter.t * S) pyval :=
  _ <- on_fst (RateLimiter.check client_ip now) ;;
  response <- on_snd call_next ;;
  ret response.

(** ** notiifcation.py *)

(** A job handed to [BackgroundTasks.add_task]. *)
Inductive task : Type :=
| SendNotification (email message : pyval).

(** An instance of [NotifyRequestModel], a pydantic [BaseModel]. *)
Definition NotifyRequestModel (email message : string) : pyval :=
  PyModel "NotifyRequestModel"
          [("email", PyStr email); ("message", PyStr message)].

Definition add_task (j : task) : M (list task) unit :=
  fun tasks => (Ok tt, tasks ++ [j]).

(** [POST /notify]; the state is the task list of this request's
    [BackgroundTasks]. *)
Definition email (request : pyval) : M (list task) pyval :=
  email <- lift (getitem request "email") ;;
  message <- lift (getitem request "message") ;;
  _ <- add_task (SendNotification email message) ;;
  ret (PyDict [("detail", PyStr "Notification scheduled")]).

(** [send_notification(email, message)]: after its sleep it prints one line
    and returns [True]; the state is standard output. *)
Definition send_notification (email message : pyval) : M (list string) pyval :=
  fun stdout => (Ok (PyBool true), stdout ++ ["sent notification"%string]).

(** The module state: the global [notification_log] and standard output. *)
Record notifier : Type := mkNotifier {
  notification_log : list string;
  stdout : list string
}.

(** [GET /notifications] *)
Definition get_notification_log : M notifier (list string) :=
  fun w => (Ok (notification_log w), w).

Definition run_task (j : task) : M (list string) pyval :=
  match j with
  | SendNotification e m => send_notification e m
  end.

(** The queued jobs, run in order once the response is out. *)
Fixpoint run_tasks (js : list task) (out : list string) : list string :=
  match js with
  | [] => out
  | j :: js' => run_tasks js' (snd (run_task j out))
  end.

(** [POST /notify] as it is served: [email] gets a fresh [BackgroundTasks];
    its jobs run when it has returned a response, and not when it raised. *)
Definition notify (request : pyval) : M notifier pyval :=
  fun w =>
    match email request [] with
    | (Ok response, tasks) =>
        (Ok response,
         mkNotifier (notification_log w) (run_tasks tasks (stdout w)))
    | (Raise e, _) => (Raise e, w)
    end.

(** A request to the notification application; the body of a [POST /notify]
    reaches the handler as a [NotifyRequestModel]. *)
Inductive notifier_request : Type :=
| Notify (email message : string)
| Notifications.

Definition notifier_step (r : notifier_request) (w : notifier) : notifier :=
  match r with
  | Notify e m => snd (notify (NotifyRequestModel e m) w)
  | Notifications => snd (get_notification_log w)
  end.

Fixpoint notifier_serve (rs : list notifier_request) (w : notifier) : notifier :=
  match rs with
  | [] => w
  | r :: rs' => notifier_serve rs' (notifier_step r w)
  end.

(** ** The application as a whole *)

(** A request to the cache application, with the clock readings its handler
    takes. *)
Inductive request : Type :=
| GetProduct (product_id : Z) (t_get t_set : Z)
| ClearCache.

Definition handle (price : Z -> result pyval) (r : request) : M app pyval :=
  match r with
  | GetProduct product_id t_get t_set => get_product price product_id t_get t_set
  | ClearCache => clear_cache
  end.

(** The state after serving the requests one after the other. *)
Fixpoint serve (price : Z -> result pyval) (rs : list request) (w : app) : app :=
  match rs with
  | [] => w
  | r :: rs' => serve price rs' (snd (handle price r w))
  end.

(** The process starts with an empty cache. *)
Definition boot : app := mkApp Cache.init [].

(** Every stored value is a dict. *)
Definition holds_dicts (s : Cache.store) : Prop :=
  forall k v e, s !! k = Some (v, e) -> exists items, v = PyDict items.

(** A price for the examples only, used at identifiers where it agrees with
    the code: the exact value for small identifiers, where binary64 is
    exact, and [OverflowError] from [2^1024] on, where no float can hold
    the identifier. *)
Definition sample_price (product_id : Z) : result pyval :=
  if Z.abs product_id >=? 2 ^ 1024 then
    Raise (OverflowError "int too large to convert to float")
  else
    Ok (PyFloat (Qred (100 + inject_Z product_id * (3 # 2)))).

(** The limiter after a sequence of requests, each with its client and its
    clock reading; a rejected request leaves the limiter as it was. *)
Fixpoint checks (rs : list (string * Z)) (self : RateLimiter.t) : RateLimiter.t :=
  match rs with
  | [] => self
  | (client_ip, now) :: rs' => checks rs' (snd (RateLimiter.check client_ip now self))
  end.

(** Every counter in the table has counted at least one request. *)
Definition counts_positive (r : RateLimiter.table) : Prop :=
  forall ip count window_start, r !! ip = Some (count, window_start) -> 1 <= count.

(** Every entry is a product as the producer returns it, stored under the
    key of its identifier with the 30 seconds of [get_product]. *)
Definition product_entries (price : Z -> result pyval) (s : Cache.store) : Prop :=
  forall k v e, s !! k = Some (v, e) ->
    exists pid t_set,
      k = cache_key pid /\
      fetch_product_from_source price pid = Ok v /\
      e = Some (t_set + timedelta 30).

(** Every entry is a product as the producer returns it, stored under the
    key of its identifier, expiring 30 seconds after the [cache.set] of one
    of the requests [rs] for that identifier. *)
Definition entries_from (price : Z -> result pyval) (rs : list request)
    (s : Cache.store) : Prop :=
  forall k v e, s !! k = Some (v, e) ->
    exists pid t_get t_set,
      In (GetProduct pid t_get t_set) rs /\
      k = cache_key pid /\
      fetch_product_from_source price pid = Ok v /\
      e = Some (t_set + timedelta 30).

(** Every counter lies between one and the limit. *)
Definition counts_bounded (self : RateLimiter.t) : Prop :=
  forall ip count window_start,
    RateLimiter.requests self !! ip = Some (count, window_start) ->
    1 <= count <= RateLimiter.limit self.

(** [GET /ping] behind the middleware, for a sequence of clients and clock
    readings: the responses, oldest first. *)
Fixpoint pings (rs : list (string * Z)) (self : RateLimiter.t)
  : list (result pyval) :=
  match rs with
  | [] => []
  | (client_ip, now) :: rs' =>
      let '(response, (self', _)) :=
        rate_limit_middleware client_ip now (ret ping) (self, tt) in
      response :: pings rs' self'
  end.

(** * Properties *)

(** ** The cache engine *)

Section CacheFacts.

Implicit Types (s : Cache.store) (k : string) (v : pyval) (e now : Z).

Lemma get_missing s k now :
  s !! k = None -> Cache.get s k now = (PyNone, s).
Proof. intros H. unfold Cache.get. now rewrite H. Qed.

Lemma get_no_expiry s k v now :
  s !! k = Some (v, None) -> Cache.get s k now = (v, s).
Proof. intros H. unfold Cache.get. now rewrite H. Qed.

Lemma get_live s k v e now :
  s !! k = Some (v, Some e) -> now <= e -> Cache.get s k now = (v, s).
Proof.
  intros H Hle. unfold Cache.get. rewrite H.
  destruct (now >? e) eqn:Hgt; [|reflexivity].
  apply Z.gtb_lt in Hgt. lia.
Qed.

Lemma get_expired s k v e now :
  s !! k = Some (v, Some e) -> e < now ->
  Cache.get s k now = (PyNone, Cache.delete s k).
Proof.
  intros H Hlt. unfold Cache.get. rewrite H.
  destruct (now >? e) eqn:Hgt; [reflexivity|].
  rewrite Z.gtb_ltb in Hgt. apply Z.ltb_ge in Hgt. lia.
Qed.

Lemma delete_lookup s k : Cache.delete s k !! k = None.
Proof. apply lookup_delete_eq. Qed.

Lemma delete_lookup_ne s k k' : k <> k' -> Cache.delete s k !! k' = s !! k'.
Proof. intros H. unfold Cache.delete. now rewrite lookup_delete_ne. Qed.

Lemma delete_changes s k : is_Some (s !! k) -> Cache.delete s k <> s.
Proof.
  intros [x Hx] Heq. pose proof (delete_lookup s k) as Hd.
  rewrite Heq, Hx in Hd. discriminate.
Qed.

Lemma delete_idempotent s k :
  Cache.delete (Cache.delete s k) k = Cache.delete s k.
Proof. unfold Cache.delete. apply delete_id, lookup_delete_eq. Qed.

Lemma delete_absent s k : s !! k = None -> Cache.delete s k = s.
Proof. apply delete_id. Qed.

Lemma set_lookup s k v ttl now :
  Cache.set s k v ttl now !! k
  = Some (v, match ttl with
             | Some t => Some (now + timedelta t)
             | None => None
             end).
Proof. unfold Cache.set. apply lookup_insert_eq. Qed.

Lemma set_lookup_ne s k k' v ttl now :
  k <> k' -> Cache.set s k v ttl now !! k' = s !! k'.
Proof. intros H. unfold Cache.set. now rewrite lookup_insert_ne. Qed.

(** The value [get] answers never depends on entries under other keys. *)
Lemma get_value_local s s' k now :
  s !! k = s' !! k -> fst (Cache.get s k now) = fst (Cache.get s' k now).
Proof.
  intros H. unfold Cache.get. rewrite H.
  destruct (s' !! k) as [[v [e|]]|]; [|reflexivity..].
  now destruct (now >? e).
Qed.

(** [set_checked] stores what [set] stores, or raises and stores nothing;
    which of the two does not depend on the store. *)
Lemma set_checked_cases s k v ttl now :
  Cache.set_checked s k v ttl now = (Ok tt, Cache.set s k v ttl now) \/
  Cache.set_checked s k v ttl now
  = (Raise (OverflowError "date value out of range"), s).
Proof.
  unfold Cache.set_checked. destruct ttl as [t|]; [|now left].
  destruct (timedelta_in_range t && datetime_in_range (now + timedelta t));
    [now left|now right].
Qed.

Lemma set_checked_ok s s' k v ttl now :
  Cache.set_checked s k v ttl now = (Ok tt, s') ->
  s' = Cache.set s k v ttl now.
Proof.
  destruct (set_checked_cases s k v ttl now) as [-> | ->]; congruence.
Qed.

Lemma set_checked_outcome s s0 k v ttl now :
  fst (Cache.set_checked s k v ttl now) = fst (Cache.set_checked s0 k v ttl now).
Proof.
  unfold Cache.set_checked. destruct ttl as [t|]; [|reflexivity].
  now destruct (timedelta_in_range t && datetime_in_range (now + timedelta t)).
Qed.

(** A TTL whose expiry instant is no [datetime] makes [set] raise. *)
Lemma set_checked_out_of_range s k v ttl now :
  datetime_in_range (now + timedelta ttl) = false ->
  Cache.set_checked s k v (Some ttl) now
  = (Raise (OverflowError "date value out of range"), s).
Proof.
  intros H. unfold Cache.set_checked. rewrite H.
  now rewrite andb_false_r.
Qed.

End CacheFacts.

(** C1. On an entry with an expiry instant [e], [get] at clock reading [now]
    takes its value-returning exit (the stored value, the store untouched)
    if and only if [now] is not strictly greater than [e]; the entry is
    still served at [now = e], and once [now > e] the answer is [None] and
    the entry is removed. *)
Theorem get_expiry_check (s : Cache.store) (k : string) (v : pyval) (e now : Z) :
  s !! k = Some (v, Some e) ->
  (Cache.get s k now = (v, s) <-> ~ (now > e)) /\
  (now > e -> Cache.get s k now = (PyNone, Cache.delete s k)) /\
  Cache.get s k e = (v, s).
Proof.
  intros H. split; [split|split].
  - intros Hget Hgt. rewrite (get_expired s k v e now H) in Hget by lia.
    injection Hget as _ Hs. eapply delete_changes; eauto.
  - intros Hle. apply (get_live s k v e now H). lia.
  - intros Hgt. apply (get_expired s k v e now H). lia.
  - apply (get_live s k v e e H). lia.
Qed.

Lemma get_expiry_check_witness :
  let s := Cache.set Cache.init "a" (PyInt 7) (Some 30) 0 in
  s !! "a" = Some (PyInt 7, Some 30000000) /\
  ((Cache.get s "a" 30000000 = (PyInt 7, s) <-> ~ (30000000 > 30000000)) /\
   (30000000 > 30000000 ->
    Cache.get s "a" 30000000 = (PyNone, Cache.delete s "a")) /\
   Cache.get s "a" 30000000 = (PyInt 7, s)).
Proof.
  intros s. split; [reflexivity|].
  apply (get_expiry_check s "a" (PyInt 7) 30000000 30000000).
  reflexivity.
Defined.

(** C2, as the code has it.  When [set] with [ttl <= 0] succeeds, the entry
    it writes has [expires_at <= now].  The next [get] answers [None] and
    removes the entry whenever its clock reading is strictly after
    [expires_at]: every reading from the instant of the [set] on when
    [ttl < 0], every strictly later reading when [ttl = 0].  At the very
    instant of a [set] with [ttl = 0] the entry is still served. *)
Theorem set_nonpositive_ttl (s s' : Cache.store) (k : string) (v : pyval)
    (ttl t_set : Z) :
  ttl <= 0 ->
  Cache.set_checked s k v (Some ttl) t_set = (Ok tt, s') ->
  let e := t_set + timedelta ttl in
  s' !! k = Some (v, Some e) /\
  e <= t_set /\
  (forall t, e < t ->
     Cache.get s' k t = (PyNone, Cache.delete s' k) /\
     Cache.delete s' k !! k = None) /\
  (forall t, t_set < t -> Cache.get s' k t = (PyNone, Cache.delete s' k)) /\
  (ttl < 0 ->
   forall t, t_set <= t -> Cache.get s' k t = (PyNone, Cache.delete s' k)) /\
  (ttl = 0 -> Cache.get s' k t_set = (v, s')).
Proof.
  intros Httl Hset e. apply set_checked_ok in Hset. subst s'.
  set (s' := Cache.set s k v (Some ttl) t_set).
  assert (Hlk : s' !! k = Some (v, Some e)) by apply set_lookup.
  assert (He : e <= t_set) by (unfold e, timedelta; lia).
  split; [exact Hlk|]. split; [exact He|]. split; [|split; [|split]].
  - intros t Ht. split; [|apply delete_lookup].
    now apply (get_expired s' k v e t).
  - intros t Ht. apply (get_expired s' k v e t Hlk). lia.
  - intros Hneg t Ht. apply (get_expired s' k v e t Hlk).
    unfold e, timedelta. lia.
  - intros H0. apply (get_live s' k v e t_set Hlk).
    unfold e, timedelta. lia.
Qed.

Lemma set_nonpositive_ttl_witness :
  let now := 63929347200000000 in
  let s' := Cache.set Cache.init "a" (PyInt 7) (Some (-5)) now in
  -5 <= 0 /\
  Cache.set_checked Cache.init "a" (PyInt 7) (Some (-5)) now = (Ok tt, s') /\
  Cache.get s' "a" now = (PyNone, Cache.delete s' "a").
Proof.
  intros now s'. split; [lia|]. split; [reflexivity|].
  apply (set_nonpositive_ttl Cache.init s' "a" (PyInt 7) (-5) now);
    [lia|reflexivity|lia|lia].
Defined.

(** C2 as written fails: a [get] at the clock reading of a [set] with
    [ttl = 0] does not answer [None]. *)
Lemma zero_ttl_same_instant_is_served :
  ~ (forall (s : Cache.store) (k : string) (v : pyval) (ttl now : Z),
       ttl <= 0 ->
       fst (Cache.get (Cache.set s k v (Some ttl) now) k now) = PyNone).
Proof.
  intros H.
  specialize (H Cache.init "k"%string (PyInt 1) 0 100 ltac:(lia)).
  vm_compute in H. discriminate H.
Qed.

(** C3. After [set(k, v)] without a TTL, [get(k)] returns [v] whatever the
    clock reads, and leaves the store as it was, so that every later
    [get(k)] returns [v] again. *)
Theorem set_without_ttl_never_expires (s : Cache.store) (k : string)
    (v : pyval) (t_set t_get t_later : Z) :
  let s' := Cache.set s k v None t_set in
  Cache.get s' k t_get = (v, s') /\
  Cache.get (snd (Cache.get s' k t_get)) k t_later = (v, s').
Proof.
  intros s'.
  assert (H : forall t, Cache.get s' k t = (v, s')).
  { intros t. apply get_no_expiry. apply (set_lookup s k v None t_set). }
  split; [apply H|]. rewrite (H t_get). apply H.
Qed.

(** C4. When the entry under [k] is expired, [get(k)] answers [None] and
    removes the entry; every further [get(k)] answers [None] again and
    leaves the store as it is, and deleting the key once more changes
    nothing. *)
Theorem get_expired_idempotent (s : Cache.store) (k : string) (v : pyval)
    (e now now' : Z) :
  s !! k = Some (v, Some e) ->
  now > e ->
  let s' := snd (Cache.get s k now) in
  Cache.get s k now = (PyNone, Cache.delete s k) /\
  s' !! k = None /\
  Cache.get s' k now' = (PyNone, s') /\
  Cache.delete s' k = s'.
Proof.
  intros H Hgt s'.
  assert (Hget : Cache.get s k now = (PyNone, Cache.delete s k))
    by (apply (get_expired s k v e now H); lia).
  assert (Hs' : s' !! k = None)
    by (unfold s'; rewrite Hget; apply delete_lookup).
  repeat split; auto using get_missing, delete_absent.
Qed.

Lemma get_expired_idempotent_witness :
  let s := Cache.set Cache.init "a" (PyInt 7) (Some 30) 0 in
  s !! "a" = Some (PyInt 7, Some 30000000) /\
  30000001 > 30000000 /\
  Cache.get s "a" 30000001 = (PyNone, Cache.delete s "a") /\
  Cache.get (snd (Cache.get s "a" 30000001)) "a" 5
  = (PyNone, snd (Cache.get s "a" 30000001)).
Proof.
  intros s. split; [reflexivity|]. split; [lia|].
  destruct (get_expired_idempotent s "a" (PyInt 7) 30000000 30000001 5)
    as (H1 & _ & H3 & _); [reflexivity|lia|].
  split; [exact H1|exact H3].
Defined.

(** C7. After [clear()], [get(k)] answers [None] for every key, whatever
    was stored under it and with whatever TTL. *)
Theorem clear_then_get (s : Cache.store) (k : string) (v : pyval)
    (ttl : option Z) (t_set now : Z) :
  Cache.get (Cache.clear s) k now = (PyNone, Cache.clear s) /\
  Cache.get (Cache.clear (Cache.set s k v ttl t_set)) k now
  = (PyNone, Cache.init).
Proof.
  split; apply get_missing; apply lookup_empty.
Qed.

(** ** The read path *)

Section ReadPath.

Variable price : Z -> result pyval.

Implicit Types (s : Cache.store) (tr : list event) (pid : Z).

(** A value other than [None] comes from the exit of [get] that leaves the
    store alone. *)
Lemma get_value_keeps_store s k now cached s1 :
  Cache.get s k now = (cached, s1) -> is_not_none cached = true -> s1 = s.
Proof.
  unfold Cache.get. destruct (s !! k) as [[v [e|]]|].
  - destruct (now >? e); intros [= <- <-]; [discriminate|reflexivity].
  - now intros [= <- <-].
  - now intros [= <- <-].
Qed.

(** What [get] leaves behind is the store itself or the store without the
    expired entry. *)
Lemma get_store_cases s k now :
  snd (Cache.get s k now) = s \/
  (snd (Cache.get s k now) = Cache.delete s k /\
   exists v e, s !! k = Some (v, Some e) /\ e < now).
Proof.
  unfold Cache.get. destruct (s !! k) as [[v [e|]]|] eqn:Hk; auto.
  destruct (now >? e) eqn:Hgt; auto.
  right. split; [reflexivity|]. exists v, e. split; [reflexivity|].
  now apply Z.gtb_lt.
Qed.

(** The lazy deletion inside [get] is invisible to every later [get]. *)
Lemma get_view_stable s k now k' t :
  now <= t ->
  fst (Cache.get (snd (Cache.get s k now)) k' t) = fst (Cache.get s k' t).
Proof.
  intros Ht. destruct (get_store_cases s k now) as [-> | [-> (v & e & Hk & He)]].
  - reflexivity.
  - destruct (decide (k = k')) as [<- | Hne].
    + rewrite (get_missing _ k t (delete_lookup s k)).
      rewrite (get_expired s k v e t Hk) by lia. reflexivity.
    + apply get_value_local. now apply delete_lookup_ne.
Qed.

Lemma get_product_hit s tr pid t_get t_set cached s1 :
  Cache.get s (cache_key pid) t_get = (cached, s1) ->
  is_not_none cached = true ->
  get_product price pid t_get t_set (mkApp s tr)
  = (dict_unpack_with cached "from_cache" (PyBool true),
     mkApp s1 (tr ++ [EvGet (cache_key pid)])).
Proof.
  intros Hget Hnn. unfold get_product, bind, cache_get, lift. simpl.
  rewrite Hget, Hnn. reflexivity.
Qed.

Lemma get_product_miss s tr pid t_get t_set s1 :
  Cache.get s (cache_key pid) t_get = (PyNone, s1) ->
  get_product price pid t_get t_set (mkApp s tr)
  = match fetch_product_from_source price pid with
    | Ok product =>
        (dict_unpack_with product "from_cache" (PyBool false),
         mkApp (Cache.set s1 (cache_key pid) product (Some 30) t_set)
               (tr ++ [EvGet (cache_key pid); EvFetch pid;
                       EvSet (cache_key pid) product (Some 30)]))
    | Raise e =>
        (Raise e, mkApp s1 (tr ++ [EvGet (cache_key pid); EvFetch pid]))
    end.
Proof.
  intros Hget. unfold get_product, bind, cache_get, fetch, cache_set, lift.
  simpl. rewrite Hget. simpl.
  destruct (fetch_product_from_source price pid); simpl;
    now rewrite <- !app_assoc.
Qed.

End ReadPath.

(** C5. [get_product] first calls [get] on the key derived from the
    identifier.  When [get] answers a dict, the handler returns that dict
    with ["from_cache": True], makes no other call (the producer is not
    invoked) and leaves the cache as it is.  When [get] answers [None] and
    the producer returns, the handler calls the producer, stores the product
    with [set(key, product, ttl=30)] and returns the product with
    ["from_cache": False]. *)
Theorem get_product_read_path (price : Z -> result pyval) (pid t_get t_set : Z)
    (s s1 : Cache.store) (tr : list event) (cached : pyval) :
  Cache.get s (cache_key pid) t_get = (cached, s1) ->
  (forall d, cached = PyDict d ->
     s1 = s /\
     get_product price pid t_get t_set (mkApp s tr)
     = (Ok (PyDict (dict_setitem d "from_cache" (PyBool true))),
        mkApp s (tr ++ [EvGet (cache_key pid)]))) /\
  (cached = PyNone ->
   forall p, price pid = Ok p ->
     let product :=
       [("id", PyInt pid);
        ("name", PyStr ("Product " +:+ pretty pid));
        ("price", p);
        ("source", PyStr "database")]%string in
     get_product price pid t_get t_set (mkApp s tr)
     = (Ok (PyDict (product ++ [("from_cache"%string, PyBool false)])),
        mkApp (Cache.set s1 (cache_key pid) (PyDict product) (Some 30) t_set)
              (tr ++ [EvGet (cache_key pid); EvFetch pid;
                      EvSet (cache_key pid) (PyDict product) (Some 30)]))).
Proof.
  intros Hget. split.
  - intros d ->.
    assert (s1 = s) as -> by (eapply get_value_keeps_store; eauto).
    split; [reflexivity|].
    now rewrite (get_product_hit price s tr pid t_get t_set _ _ Hget).
  - intros -> p Hp product.
    rewrite (get_product_miss price s tr pid t_get t_set s1 Hget).
    unfold fetch_product_from_source. rewrite Hp. reflexivity.
Qed.

Lemma get_product_read_path_witness :
  let product :=
    [("id", PyInt 42); ("name", PyStr "Product 42");
     ("price", PyFloat (163 # 1)); ("source", PyStr "database")]%string in
  let s1 := Cache.set Cache.init "product:42" (PyDict product) (Some 30) 1000000 in
  let tr1 := [EvGet "product:42"; EvFetch 42;
              EvSet "product:42" (PyDict product) (Some 30)] in
  (Cache.get Cache.init (cache_key 42) 0 = (PyNone, Cache.init) /\
   sample_price 42 = Ok (PyFloat (163 # 1)) /\
   get_product sample_price 42 0 1000000 boot
   = (Ok (PyDict (product ++ [("from_cache"%string, PyBool false)])),
      mkApp s1 tr1)) /\
  (Cache.get s1 (cache_key 42) 31000000 = (PyDict product, s1) /\
   get_product sample_price 42 31000000 32000000 (mkApp s1 tr1)
   = (Ok (PyDict (product ++ [("from_cache"%string, PyBool true)])),
      mkApp s1 (tr1 ++ [EvGet "product:42"]))).
Proof.
  intros product s1 tr1. split.
  - split; [reflexivity|]. split; [reflexivity|].
    apply (proj2 (get_product_read_path sample_price 42 0 1000000
                    Cache.init Cache.init [] PyNone eq_refl) eq_refl
                 (PyFloat (163 # 1)) eq_refl).
  - split; [reflexivity|].
    apply (proj1 (get_product_read_path sample_price 42 31000000 32000000
                    s1 s1 tr1 (PyDict product) eq_refl) product eq_refl).
Defined.

(** C6, as the code has it.  When the producer raises on a miss,
    [get_product] raises the same exception.  Its calls are the [get] and
    the fetch only: there is no [set].  The cache it leaves is the one left
    by the [get] of step 1: the cache it found, or, when the entry under
    the key had expired, that cache without the entry.  Every other key is
    untouched and every [get] from then on answers as it would have. *)
Theorem get_product_producer_failure (price : Z -> result pyval)
    (pid t_get t_set : Z) (s : Cache.store) (tr : list event) (e : exn) :
  fetch_product_from_source price pid = Raise e ->
  fst (Cache.get s (cache_key pid) t_get) = PyNone ->
  let s1 := snd (Cache.get s (cache_key pid) t_get) in
  get_product price pid t_get t_set (mkApp s tr)
  = (Raise e, mkApp s1 (tr ++ [EvGet (cache_key pid); EvFetch pid])) /\
  (forall v ttl, ~ In (EvSet (cache_key pid) v ttl)
                      [EvGet (cache_key pid); EvFetch pid]) /\
  (s1 = s \/
   (s1 = Cache.delete s (cache_key pid) /\
    exists v exp, s !! cache_key pid = Some (v, Some exp) /\ exp < t_get)) /\
  (forall k t, t_get <= t -> fst (Cache.get s1 k t) = fst (Cache.get s k t)) /\
  (forall k, k <> cache_key pid -> s1 !! k = s !! k).
Proof.
  intros Hfetch Hmiss s1.
  assert (Hget : Cache.get s (cache_key pid) t_get = (PyNone, s1)).
  { unfold s1. rewrite <- Hmiss. now destruct (Cache.get s (cache_key pid) t_get). }
  split; [|split; [|split; [|split]]].
  - rewrite (get_product_miss price s tr pid t_get t_set s1 Hget).
    now rewrite Hfetch.
  - intros v ttl [H | [H | []]]; discriminate H.
  - apply get_store_cases.
  - intros k t Ht. now apply get_view_stable.
  - intros k Hk.
    destruct (get_store_cases s (cache_key pid) t_get) as [H | [H _]];
      unfold s1; rewrite H; [reflexivity|].
    apply delete_lookup_ne. congruence.
Qed.

Lemma get_product_producer_failure_witness :
  fetch_product_from_source sample_price (2 ^ 1024)
  = Raise (OverflowError "int too large to convert to float") /\
  fst (Cache.get Cache.init (cache_key (2 ^ 1024)) 0) = PyNone /\
  get_product sample_price (2 ^ 1024) 0 1000000 boot
  = (Raise (OverflowError "int too large to convert to float"),
     mkApp (snd (Cache.get Cache.init (cache_key (2 ^ 1024)) 0))
           [EvGet (cache_key (2 ^ 1024)); EvFetch (2 ^ 1024)]).
Proof.
  split; [reflexivity|]. split; [reflexivity|].
  apply (get_product_producer_failure sample_price (2 ^ 1024) 0 1000000
           Cache.init []); reflexivity.
Defined.

(** C6 as written fails: with an expired entry under the key, a failed
    production leaves the key without its entry. *)
Lemma failed_production_drops_expired_entry :
  ~ (forall (price : Z -> result pyval) (pid t_get t_set : Z)
            (s : Cache.store) (tr : list event) (e : exn),
       fetch_product_from_source price pid = Raise e ->
       fst (Cache.get s (cache_key pid) t_get) = PyNone ->
       cache_instance (snd (get_product price pid t_get t_set (mkApp s tr)))
         !! cache_key pid
       = s !! cache_key pid).
Proof.
  intros H.
  specialize (H sample_price (2 ^ 1024) 2000000 3000000
                (Cache.set Cache.init (cache_key (2 ^ 1024))
                   (PyDict [("id"%string, PyInt (2 ^ 1024))]) (Some 1) 0)
                [] (OverflowError "int too large to convert to float")
                eq_refl eq_refl).
  rewrite set_lookup in H.
  rewrite (get_product_miss sample_price _ [] (2 ^ 1024) 2000000 3000000
             (Cache.delete (Cache.set Cache.init (cache_key (2 ^ 1024))
                (PyDict [("id"%string, PyInt (2 ^ 1024))]) (Some 1) 0)
                (cache_key (2 ^ 1024)))) in H.
  - simpl in H. rewrite delete_lookup in H. discriminate H.
  - apply (get_expired _ _ (PyDict [("id"%string, PyInt (2 ^ 1024))])
             (0 + timedelta 1));
      [apply (set_lookup _ _ _ (Some 1) 0)|reflexivity].
Qed.

(** C10. After [set(k, None)] without a TTL, [get(k)] answers [None], which
    is what it answers when [k] is absent.  [get_product] takes the entry
    for a miss: it invokes the producer, and it returns and logs exactly
    what it does when the key is absent. *)
Theorem cached_none_is_a_miss (price : Z -> result pyval) (s : Cache.store)
    (k : string) (pid t_set t_get t_fetch : Z) (tr : list event) :
  fst (Cache.get (Cache.set s k PyNone None t_set) k t_get) = PyNone /\
  fst (Cache.get (Cache.set s k PyNone None t_set) k t_get)
  = fst (Cache.get (Cache.delete s k) k t_get) /\
  let w := mkApp (Cache.set s (cache_key pid) PyNone None t_set) tr in
  let w0 := mkApp (Cache.delete s (cache_key pid)) tr in
  fst (get_product price pid t_get t_fetch w)
  = fst (get_product price pid t_get t_fetch w0) /\
  trace (snd (get_product price pid t_get t_fetch w))
  = trace (snd (get_product price pid t_get t_fetch w0)) /\
  exists rest,
    trace (snd (get_product price pid t_get t_fetch w))
    = tr ++ EvGet (cache_key pid) :: EvFetch pid :: rest.
Proof.
  assert (Hnone : forall k', Cache.get (Cache.set s k' PyNone None t_set) k' t_get
                  = (PyNone, Cache.set s k' PyNone None t_set)).
  { intros k'. apply get_no_expiry. apply (set_lookup s k' PyNone None t_set). }
  assert (Habs : forall k', Cache.get (Cache.delete s k') k' t_get
                 = (PyNone, Cache.delete s k')).
  { intros k'. apply get_missing, delete_lookup. }
  split; [now rewrite Hnone|]. split; [now rewrite Hnone, Habs|].
  intros w w0. unfold w, w0.
  rewrite (get_product_miss price _ tr pid t_get t_fetch _ (Hnone _)).
  rewrite (get_product_miss price _ tr pid t_get t_fetch _ (Habs _)).
  destruct (fetch_product_from_source price pid) as [product|e]; simpl.
  - repeat split; eauto.
  - repeat split; eauto.
Qed.

(** ** The cache application keeps dicts only *)

Section Reachable.

Variable price : Z -> result pyval.

Lemma holds_dicts_init : holds_dicts Cache.init.
Proof. intros k v e H. unfold Cache.init in H. now rewrite lookup_empty in H. Qed.

Lemma holds_dicts_get s k now :
  holds_dicts s -> holds_dicts (snd (Cache.get s k now)).
Proof.
  intros Hs. destruct (get_store_cases s k now) as [-> | [-> _]]; [exact Hs|].
  intros k' v e. unfold Cache.delete. rewrite lookup_delete.
  case_decide; [discriminate|apply Hs].
Qed.

Lemma holds_dicts_set s k items ttl now :
  holds_dicts s -> holds_dicts (Cache.set s k (PyDict items) ttl now).
Proof.
  intros Hs k' v e. unfold Cache.set. rewrite lookup_insert.
  case_decide; [|apply Hs]. intros [= <- _]. eauto.
Qed.

Lemma fetch_returns_dict pid product :
  fetch_product_from_source price pid = Ok product ->
  exists items, product = PyDict items.
Proof.
  unfold fetch_product_from_source.
  destruct (price pid); [|discriminate]. intros [= <-]. eauto.
Qed.

Lemma holds_dicts_handle r w :
  holds_dicts (cache_instance w) ->
  holds_dicts (cache_instance (snd (handle price r w))).
Proof.
  destruct w as [s tr]. simpl. intros Hs.
  destruct r as [pid t_get t_set|]; simpl; [|apply holds_dicts_init].
  destruct (Cache.get s (cache_key pid) t_get) as [cached s1] eqn:Hget.
  assert (Hs1 : holds_dicts s1).
  { replace s1 with (snd (Cache.get s (cache_key pid) t_get))
      by now rewrite Hget.
    now apply holds_dicts_get. }
  destruct (is_not_none cached) eqn:Hnn.
  - now rewrite (get_product_hit price s tr pid t_get t_set _ _ Hget Hnn).
  - destruct cached; try discriminate.
    rewrite (get_product_miss price s tr pid t_get t_set s1 Hget).
    destruct (fetch_product_from_source price pid) as [product|e] eqn:Hf;
      simpl; [|exact Hs1].
    destruct (fetch_returns_dict _ _ Hf) as [items ->].
    now apply holds_dicts_set.
Qed.

Lemma holds_dicts_serve rs : forall w,
  holds_dicts (cache_instance w) ->
  holds_dicts (cache_instance (serve price rs w)).
Proof.
  induction rs as [|r rs IH]; intros w Hw; simpl; [exact Hw|].
  apply IH. now apply holds_dicts_handle.
Qed.

(** On a state reached by serving requests from boot, whatever [get]
    answers is [None] or a dict: the hit branch of [get_product] never
    fails to unpack it. *)
Lemma reachable_get_none_or_dict rs k now :
  let s := cache_instance (serve price rs boot) in
  fst (Cache.get s k now) = PyNone \/
  exists items, fst (Cache.get s k now) = PyDict items.
Proof.
  intros s.
  assert (Hs : holds_dicts s) by (apply holds_dicts_serve, holds_dicts_init).
  unfold Cache.get. destruct (s !! k) as [[v [e|]]|] eqn:Hk; simpl; auto.
  - destruct (now >? e); simpl; auto. right. eapply Hs; eauto.
  - right. eapply Hs; eauto.
Qed.

End Reachable.

(** ** The rate limiter *)

Section RateLimiterFacts.

Import RateLimiter.

Implicit Types (self : RateLimiter.t) (ip : string) (now count ws : Z).

Lemma check_first_request self ip now :
  requests self !! ip = None ->
  check ip now self
  = (Ok tt, with_requests self (<[ip := (1, now)]> (requests self))).
Proof. intros H. unfold check. now rewrite H. Qed.

Lemma check_reset self ip now count ws :
  requests self !! ip = Some (count, ws) ->
  now - ws >= window self ->
  check ip now self
  = (Ok tt, with_requests self (<[ip := (1, now)]> (requests self))).
Proof.
  intros H Hel. unfold check. rewrite H.
  destruct (now - ws >=? window self) eqn:E; [reflexivity|].
  rewrite Z.geb_leb in E. apply Z.leb_gt in E. lia.
Qed.

Lemma check_reject self ip now count ws :
  requests self !! ip = Some (count, ws) ->
  now - ws < window self ->
  count >= limit self ->
  check ip now self = (Raise (HTTPException 429 "Rate limit exceeded"), self).
Proof.
  intros H Hel Hc. unfold check. rewrite H.
  destruct (now - ws >=? window self) eqn:E.
  { rewrite Z.geb_leb in E. apply Z.leb_le in E. lia. }
  destruct (count >=? limit self) eqn:E'; [reflexivity|].
  rewrite Z.geb_leb in E'. apply Z.leb_gt in E'. lia.
Qed.

Lemma check_increment self ip now count ws :
  requests self !! ip = Some (count, ws) ->
  now - ws < window self ->
  count < limit self ->
  check ip now self
  = (Ok tt, with_requests self (<[ip := (count + 1, ws)]> (requests self))).
Proof.
  intros H Hel Hc. unfold check. rewrite H.
  destruct (now - ws >=? window self) eqn:E.
  { rewrite Z.geb_leb in E. apply Z.leb_le in E. lia. }
  destruct (count >=? limit self) eqn:E'; [|reflexivity].
  rewrite Z.geb_leb in E'. apply Z.leb_le in E'. lia.
Qed.

(** [check] touches the entry of its client only, and never the settings. *)
Lemma check_frame self ip now :
  limit (snd (check ip now self)) = limit self /\
  window (snd (check ip now self)) = window self /\
  forall ip', ip' <> ip ->
    requests (snd (check ip now self)) !! ip' = requests self !! ip'.
Proof.
  unfold check. destruct (requests self !! ip) as [[count ws]|].
  - destruct (now - ws >=? window self); [|destruct (count >=? limit self)];
      simpl; repeat split; auto; intros ip' Hne; now rewrite lookup_insert_ne.
  - simpl. repeat split; auto. intros ip' Hne. now rewrite lookup_insert_ne.
Qed.

Lemma counts_positive_check self ip now :
  counts_positive (requests self) ->
  counts_positive (requests (snd (check ip now self))).
Proof.
  intros Hpos. unfold check.
  destruct (requests self !! ip) as [[count ws]|] eqn:Hip.
  - destruct (now - ws >=? window self); [|destruct (count >=? limit self)];
      simpl; auto; intros ip' c w; rewrite lookup_insert; case_decide;
      try apply Hpos; intros [= <- <-]; [lia|].
    specialize (Hpos ip count ws Hip). lia.
  - simpl. intros ip' c w. rewrite lookup_insert. case_decide; [|apply Hpos].
    intros [= <- <-]. lia.
Qed.

Lemma counts_positive_checks rs : forall self,
  counts_positive (requests self) -> counts_positive (requests (checks rs self)).
Proof.
  induction rs as [|[ip now] rs IH]; intros self H; simpl; [exact H|].
  apply IH. now apply counts_positive_check.
Qed.

(** From a fresh limiter every counter stays at one or more. *)
Lemma counts_positive_reachable lim secs rs :
  counts_positive (requests (checks rs (init lim secs))).
Proof.
  apply counts_positive_checks. intros ip c w H. simpl in H.
  now rewrite lookup_empty in H.
Qed.

End RateLimiterFacts.

(** C9. For a client whose entry is [(count, window_start)]: when
    [now - window_start >= window] the entry becomes [(1, now)] and the
    request passes; in a live window the request is rejected with
    [HTTPException 429], the limiter unchanged, when [count >= limit], and
    otherwise passes with the entry [(count + 1, window_start)].  The reset
    happens exactly when the window has elapsed. *)
Theorem check_fixed_window (self : RateLimiter.t) (ip : string)
    (now count ws : Z) :
  RateLimiter.requests self !! ip = Some (count, ws) ->
  let reset :=
    (Ok tt, RateLimiter.with_requests self
              (<[ip := (1, now)]> (RateLimiter.requests self))) in
  (now - ws >= RateLimiter.window self ->
   RateLimiter.check ip now self = reset) /\
  (now - ws < RateLimiter.window self -> count >= RateLimiter.limit self ->
   RateLimiter.check ip now self
   = (Raise (HTTPException 429 "Rate limit exceeded"), self)) /\
  (now - ws < RateLimiter.window self -> count < RateLimiter.limit self ->
   RateLimiter.check ip now self
   = (Ok tt, RateLimiter.with_requests self
               (<[ip := (count + 1, ws)]> (RateLimiter.requests self)))) /\
  (1 <= count ->
   (RateLimiter.check ip now self = reset
    <-> now - ws >= RateLimiter.window self)).
Proof.
  intros H reset. split; [|split; [|split]].
  - now apply (check_reset self ip now count ws).
  - now apply check_reject.
  - now apply check_increment.
  - intros Hc. split; [|now apply (check_reset self ip now count ws)].
    intros Hchk.
    destruct (Z_lt_ge_dec (now - ws) (RateLimiter.window self)) as [Hlive|]; [|lia].
    exfalso.
    destruct (Z_lt_ge_dec count (RateLimiter.limit self)) as [Hlt|Hge].
    + rewrite (check_increment self ip now count ws H Hlive Hlt) in Hchk.
      unfold reset in Hchk. injection Hchk as Hr.
      apply (f_equal (fun r : RateLimiter.table => r !! ip)) in Hr.
      simpl in Hr. rewrite !lookup_insert_eq in Hr.
      injection Hr as Hr _. lia.
    + rewrite (check_reject self ip now count ws H Hlive Hge) in Hchk.
      discriminate Hchk.
Qed.

Lemma check_fixed_window_witness :
  let self := checks [("10.0.0.1"%string, 0)] rate_limiter in
  RateLimiter.requests self !! "10.0.0.1" = Some (1, 0) /\
  59999999 - 0 < RateLimiter.window self /\
  1 < RateLimiter.limit self /\
  RateLimiter.check "10.0.0.1" 59999999 self
  = (Ok tt, RateLimiter.with_requests self
              (<["10.0.0.1"%string := (1 + 1, 0)]> (RateLimiter.requests self))).
Proof.
  intros self. split; [reflexivity|]. split; [reflexivity|].
  split; [reflexivity|].
  apply (check_fixed_window self "10.0.0.1" 59999999 1 0); reflexivity.
Defined.

(** ** The notification endpoint *)

(** With a request that can be subscripted the handler does what it is
    written for: one job is queued and the confirmation returned. *)
Lemma email_on_subscriptable (e m : pyval) (tasks : list task) :
  email (PyDict [("email"%string, e); ("message"%string, m)]) tasks
  = (Ok (PyDict [("detail"%string, PyStr "Notification scheduled")]),
     tasks ++ [SendNotification e m]).
Proof. reflexivity. Qed.

(** C8, what the code does.  The request handed to [email] is a
    [NotifyRequestModel]; [request['email']] raises [TypeError] on it, so
    the handler fails on every request, queues no job and returns no
    confirmation. *)
Theorem email_raises_on_every_request (e m : string) (tasks : list task) :
  email (NotifyRequestModel e m) tasks
  = (Raise (TypeError "object is not subscriptable"), tasks).
Proof. reflexivity. Qed.

(** The job itself only prints: nothing is ever appended to
    [notification_log]. *)
Lemma send_notification_prints (e m : pyval) (stdout : list string) :
  send_notification e m stdout
  = (Ok (PyBool true), stdout ++ ["sent notification"%string]).
Proof. reflexivity. Qed.

(** * Further properties *)

(** ** The cache engine, operation by operation *)

(** X1. A [set] that succeeds replaces the entry of its key whole, value
    and expiry: after two [set]s on a key the store is the one the second
    alone would have left.  A second [set] that raises leaves the store,
    and with it the first entry, as it was.  A [set] without TTL, which
    never raises, leaves an entry that no [get] expires. *)
Theorem set_last_write_wins (s : Cache.store) (k : string) (v1 v2 : pyval)
    (ttl1 ttl2 : option Z) (t1 t2 now : Z) :
  let s1 := snd (Cache.set_checked s k v1 ttl1 t1) in
  (fst (Cache.set_checked s1 k v2 ttl2 t2) = Ok tt ->
   Cache.set_checked s1 k v2 ttl2 t2 = Cache.set_checked s k v2 ttl2 t2) /\
  (forall e, fst (Cache.set_checked s1 k v2 ttl2 t2) = Raise e ->
     snd (Cache.set_checked s1 k v2 ttl2 t2) = s1) /\
  Cache.get (snd (Cache.set_checked s1 k v2 None t2)) k now
  = (v2, Cache.set s k v2 None t2).
Proof.
  intros s1.
  assert (H : forall ttl, Cache.set s1 k v2 ttl t2 = Cache.set s k v2 ttl t2).
  { intros ttl. unfold s1.
    destruct (set_checked_cases s k v1 ttl1 t1) as [-> | ->]; simpl;
      [|reflexivity].
    unfold Cache.set. apply insert_insert_eq. }
  split; [|split].
  - intros Hok.
    pose proof (set_checked_outcome s1 s k v2 ttl2 t2) as Hsame.
    destruct (set_checked_cases s1 k v2 ttl2 t2) as [E1 | E1];
      rewrite E1 in Hok, Hsame |- *; [|discriminate].
    destruct (set_checked_cases s k v2 ttl2 t2) as [E | E];
      rewrite E in Hsame |- *; [|discriminate]. now rewrite H.
  - intros e He.
    destruct (set_checked_cases s1 k v2 ttl2 t2) as [E1 | E1];
      rewrite E1 in He |- *; [discriminate|reflexivity].
  - simpl. rewrite H. apply get_no_expiry.
    apply (set_lookup s k v2 None t2).
Qed.

Lemma set_last_write_wins_witness :
  let t := 63929347200000000 in
  let s1 := snd (Cache.set_checked Cache.init "a" (PyInt 1) (Some 30) t) in
  fst (Cache.set_checked s1 "a" (PyInt 2) (Some 60) (t + 5)) = Ok tt /\
  Cache.set_checked s1 "a" (PyInt 2) (Some 60) (t + 5)
  = Cache.set_checked Cache.init "a" (PyInt 2) (Some 60) (t + 5).
Proof.
  intros t s1. split; [reflexivity|].
  apply (proj1 (set_last_write_wins Cache.init "a" (PyInt 1) (PyInt 2)
                  (Some 30) (Some 60) t (t + 5) 0)).
  reflexivity.
Defined.

(** X2. A [set] on one key changes nothing for another: [get] on the other
    key answers as before, and leaves the new entry in place. *)
Theorem set_leaves_other_keys (s : Cache.store) (k k' : string) (v : pyval)
    (ttl : option Z) (t_set now : Z) :
  k <> k' ->
  fst (Cache.get (Cache.set s k v ttl t_set) k' now) = fst (Cache.get s k' now) /\
  snd (Cache.get (Cache.set s k v ttl t_set) k' now) !! k
  = Cache.set s k v ttl t_set !! k.
Proof.
  intros Hne. split.
  - apply get_value_local. now apply set_lookup_ne.
  - destruct (get_store_cases (Cache.set s k v ttl t_set) k' now)
      as [-> | [-> _]]; [reflexivity|].
    apply delete_lookup_ne. congruence.
Qed.

Lemma set_leaves_other_keys_witness :
  "a"%string <> "b"%string /\
  fst (Cache.get (Cache.set (Cache.set Cache.init "b" (PyInt 1) (Some 5) 0)
                            "a" (PyInt 2) None 0) "b" 9000000)
  = fst (Cache.get (Cache.set Cache.init "b" (PyInt 1) (Some 5) 0) "b" 9000000).
Proof.
  split; [discriminate|].
  apply (set_leaves_other_keys _ "a" "b" (PyInt 2) None 0 9000000).
  discriminate.
Defined.

Lemma set_with_ttl_lifecycle_aux (s : Cache.store) (k : string) (v : pyval)
    (ttl t_set now : Z) :
  let s' := Cache.set s k v (Some ttl) t_set in
  (now <= t_set + ttl * 1000000 -> Cache.get s' k now = (v, s')) /\
  (now > t_set + ttl * 1000000 ->
   Cache.get s' k now = (PyNone, Cache.delete s k)).
Proof.
  intros s'.
  assert (Hlk : s' !! k = Some (v, Some (t_set + timedelta ttl)))
    by apply set_lookup.
  split; intros H.
  - apply (get_live s' k v _ now Hlk). unfold timedelta. lia.
  - rewrite (get_expired s' k v _ now Hlk) by (unfold timedelta; lia).
    f_equal. unfold s', Cache.delete, Cache.set. apply delete_insert_eq.
Qed.

(** X3. When [set(k, v, ttl)] at clock reading [t_set] succeeds, a
    [get(k)] up to and including [ttl] seconds later returns [v] and keeps
    the entry; any later [get(k)] returns [None] and leaves the store as if
    the key had been deleted from the store before the [set].  When the
    [set] raises, the store is the one it found. *)
Theorem set_with_ttl_lifecycle (s : Cache.store) (k : string) (v : pyval)
    (ttl t_set now : Z) :
  let r := Cache.set_checked s k v (Some ttl) t_set in
  (fst r = Ok tt ->
   (now <= t_set + ttl * 1000000 -> Cache.get (snd r) k now = (v, snd r)) /\
   (now > t_set + ttl * 1000000 ->
    Cache.get (snd r) k now = (PyNone, Cache.delete s k))) /\
  (forall e, fst r = Raise e -> snd r = s).
Proof.
  intros r. unfold r.
  destruct (set_checked_cases s k v (Some ttl) t_set) as [-> | ->]; simpl.
  - split; [|discriminate]. intros _.
    apply set_with_ttl_lifecycle_aux.
  - split; [discriminate|reflexivity].
Qed.

Lemma set_with_ttl_lifecycle_witness :
  let v := PyDict [("id", PyInt 42); ("name", PyStr "Product 42")]%string in
  let t := 63929347200000000 in
  let r := Cache.set_checked Cache.init "product:42" v (Some 30) t in
  fst r = Ok tt /\
  (t + 10000000 <= t + 30 * 1000000 /\
   Cache.get (snd r) "product:42" (t + 10000000) = (v, snd r)) /\
  (t + 31000000 > t + 30 * 1000000 /\
   Cache.get (snd r) "product:42" (t + 31000000)
   = (PyNone, Cache.delete Cache.init "product:42")).
Proof.
  intros v t r. split; [reflexivity|]. split; (split; [unfold t; lia|]).
  - apply (proj1 (proj1 (set_with_ttl_lifecycle Cache.init "product:42" v 30
                           t (t + 10000000)) eq_refl)). unfold t. lia.
  - apply (proj2 (proj1 (set_with_ttl_lifecycle Cache.init "product:42" v 30
                           t (t + 31000000)) eq_refl)). unfold t. lia.
Defined.

(** X4. After [delete(k)], [get(k)] answers [None] whatever was stored and
    whenever it would have expired; the other keys answer as before; and on
    a key that is not stored [delete] is a no-op. *)
Theorem delete_then_get (s : Cache.store) (k k' : string) (now : Z) :
  Cache.get (Cache.delete s k) k now = (PyNone, Cache.delete s k) /\
  (k <> k' ->
   fst (Cache.get (Cache.delete s k) k' now) = fst (Cache.get s k' now)) /\
  (s !! k = None -> Cache.delete s k = s).
Proof.
  split; [apply get_missing, delete_lookup|]. split.
  - intros Hne. apply get_value_local. now apply delete_lookup_ne.
  - apply delete_absent.
Qed.

Lemma delete_then_get_witness :
  let s := Cache.set Cache.init "a" (PyInt 1) None 0 in
  ("b"%string <> "a"%string /\
   fst (Cache.get (Cache.delete s "b") "a" 7) = fst (Cache.get s "a" 7)) /\
  (s !! "b" = None /\ Cache.delete s "b" = s).
Proof.
  intros s. split; (split; [easy|]).
  - apply (proj1 (proj2 (delete_then_get s "b" "a" 7))). discriminate.
  - apply (proj2 (proj2 (delete_then_get s "b" "a" 7))). reflexivity.
Defined.

(** X5. The only thing a [get] does to the store is to drop the entry it
    was asked for, and only when that entry has expired: in that case the
    store it leaves is the store without the key, in every other case the
    store itself.  Every [get], on any key, at the same or a later clock
    reading then answers what it would have answered without it. *)
Theorem get_is_unobservable (s : Cache.store) (k k' : string) (now t : Z) :
  let expired := exists v e, s !! k = Some (v, Some e) /\ e < now in
  (expired -> snd (Cache.get s k now) = Cache.delete s k) /\
  (~ expired -> snd (Cache.get s k now) = s) /\
  (now <= t ->
   fst (Cache.get (snd (Cache.get s k now)) k' t) = fst (Cache.get s k' t)).
Proof.
  intros expired. split; [|split].
  - intros (v & e & Hk & He). now rewrite (get_expired s k v e now Hk He).
  - intros Hne.
    destruct (get_store_cases s k now) as [H | [_ H]]; [exact H|].
    now destruct Hne.
  - intros Ht. now apply get_view_stable.
Qed.

Lemma get_is_unobservable_witness :
  let s := Cache.set (Cache.set Cache.init "b" (PyInt 2) (Some 1) 0)
                     "a" (PyInt 1) (Some 1) 0 in
  (exists v e, s !! "a" = Some (v, Some e) /\ e < 2000000) /\
  snd (Cache.get s "a" 2000000) = Cache.delete s "a" /\
  2000000 <= 3000000 /\
  fst (Cache.get (snd (Cache.get s "a" 2000000)) "b" 3000000)
  = fst (Cache.get s "b" 3000000).
Proof.
  intros s.
  assert (H : exists v e, s !! "a" = Some (v, Some e) /\ e < 2000000).
  { exists (PyInt 1), 1000000. split; reflexivity. }
  split; [exact H|]. split.
  - apply (proj1 (get_is_unobservable s "a" "b" 2000000 3000000) H).
  - split; [lia|].
    apply (proj2 (proj2 (get_is_unobservable s "a" "b" 2000000 3000000))). lia.
Defined.

(** ** The product endpoint *)

Lemma cache_key_inj (a b : Z) : cache_key a = cache_key b -> a = b.
Proof.
  unfold cache_key. intros H.
  apply (inj (String.app "product:")) in H. now apply (inj pretty) in H.
Qed.

(** X6. The cache key determines the product identifier: two identifiers
    share a key only when they are equal. *)
Theorem cache_key_injective (a b : Z) : cache_key a = cache_key b <-> a = b.
Proof. split; [apply cache_key_inj|now intros ->]. Qed.

Section ProductFacts.

Variable price : Z -> result pyval.

Implicit Types (s : Cache.store) (tr : list event) (pid : Z).

Lemma product_entries_init : product_entries price Cache.init.
Proof. intros k v e H. unfold Cache.init in H. now rewrite lookup_empty in H. Qed.

Lemma product_entries_get s k now :
  product_entries price s -> product_entries price (snd (Cache.get s k now)).
Proof.
  intros Hs. destruct (get_store_cases s k now) as [-> | [-> _]]; [exact Hs|].
  intros k' v e. unfold Cache.delete. rewrite lookup_delete.
  case_decide; [discriminate|apply Hs].
Qed.

Lemma product_entries_set s pid product t_set :
  fetch_product_from_source price pid = Ok product ->
  product_entries price s ->
  product_entries price (Cache.set s (cache_key pid) product (Some 30) t_set).
Proof.
  intros Hf Hs k v e. unfold Cache.set. rewrite lookup_insert.
  case_decide; [|apply Hs]. intros [= <- <-]. subst k. eauto.
Qed.

Lemma product_entries_handle r w :
  product_entries price (cache_instance w) ->
  product_entries price (cache_instance (snd (handle price r w))).
Proof.
  destruct w as [s tr]. simpl. intros Hs.
  destruct r as [pid t_get t_set|]; simpl; [|apply product_entries_init].
  destruct (Cache.get s (cache_key pid) t_get) as [cached s1] eqn:Hget.
  assert (Hs1 : product_entries price s1).
  { replace s1 with (snd (Cache.get s (cache_key pid) t_get))
      by now rewrite Hget.
    now apply product_entries_get. }
  destruct (is_not_none cached) eqn:Hnn.
  - now rewrite (get_product_hit price s tr pid t_get t_set _ _ Hget Hnn).
  - destruct cached; try discriminate.
    rewrite (get_product_miss price s tr pid t_get t_set s1 Hget).
    destruct (fetch_product_from_source price pid) as [product|e] eqn:Hf;
      simpl; [|exact Hs1].
    now apply product_entries_set.
Qed.

Lemma product_entries_serve rs : forall w,
  product_entries price (cache_instance w) ->
  product_entries price (cache_instance (serve price rs w)).
Proof.
  induction rs as [|r rs IH]; intros w Hw; simpl; [exact Hw|].
  apply IH. now apply product_entries_handle.
Qed.

(** What [get] answers on such a store under the key of [pid] is [None] or
    the very product the producer returns for [pid]. *)
Lemma product_entries_answer s pid now :
  product_entries price s ->
  fst (Cache.get s (cache_key pid) now) = PyNone \/
  fetch_product_from_source price pid = Ok (fst (Cache.get s (cache_key pid) now)).
Proof.
  intros Hs. unfold Cache.get.
  destruct (s !! cache_key pid) as [[v e]|] eqn:Hk; [|now left].
  destruct (Hs _ _ _ Hk) as (pid' & t & Hkey & Hf & ->).
  apply cache_key_inj in Hkey. subst pid'.
  destruct (now >? t + timedelta 30); [now left|now right].
Qed.

(** The response of [get_product] on such a store. *)
Lemma get_product_response s tr pid t_get t_set :
  product_entries price s ->
  match fetch_product_from_source price pid with
  | Ok product =>
      exists b,
        fst (get_product price pid t_get t_set (mkApp s tr))
        = dict_unpack_with product "from_cache" (PyBool b)
  | Raise e =>
      fst (get_product price pid t_get t_set (mkApp s tr)) = Raise e
  end.
Proof.
  intros Hs.
  destruct (Cache.get s (cache_key pid) t_get) as [cached s1] eqn:Hget.
  destruct (product_entries_answer s pid t_get Hs) as [Hn | Hf];
    rewrite Hget in *; simpl in *.
  - subst cached.
    rewrite (get_product_miss price s tr pid t_get t_set s1 Hget).
    destruct (fetch_product_from_source price pid); [exists false|]; reflexivity.
  - rewrite Hf.
    destruct (is_not_none cached) eqn:Hnn.
    + rewrite (get_product_hit price s tr pid t_get t_set _ _ Hget Hnn).
      now exists true.
    + destruct cached; try discriminate.
      rewrite (get_product_miss price s tr pid t_get t_set s1 Hget), Hf.
      now exists false.
Qed.

End ProductFacts.

(** X7. A product fetched on a miss is served from the cache, without a
    second fetch, by every [get_product] whose [cache.get] reads the clock
    up to and including 30 seconds after the [cache.set]; a later one
    fetches and stores the product again. *)
Theorem product_cached_for_thirty_seconds (price : Z -> result pyval)
    (pid : Z) (s : Cache.store) (tr : list event) (p : pyval)
    (t_get t_set t_get' t_set' : Z) :
  fst (Cache.get s (cache_key pid) t_get) = PyNone ->
  price pid = Ok p ->
  let key := cache_key pid in
  let product :=
    [("id", PyInt pid);
     ("name", PyStr ("Product " +:+ pretty pid));
     ("price", p);
     ("source", PyStr "database")]%string in
  let s1 := snd (Cache.get s key t_get) in
  let w1 := snd (get_product price pid t_get t_set (mkApp s tr)) in
  (t_get' <= t_set + 30000000 ->
   get_product price pid t_get' t_set' w1
   = (Ok (PyDict (product ++ [("from_cache"%string, PyBool true)])),
      mkApp (cache_instance w1) (trace w1 ++ [EvGet key]))) /\
  (t_get' > t_set + 30000000 ->
   get_product price pid t_get' t_set' w1
   = (Ok (PyDict (product ++ [("from_cache"%string, PyBool false)])),
      mkApp (Cache.set s1 key (PyDict product) (Some 30) t_set')
            (trace w1 ++ [EvGet key; EvFetch pid;
                          EvSet key (PyDict product) (Some 30)]))).
Proof.
  intros Hmiss Hp key product s1 w1.
  assert (Hget : Cache.get s key t_get = (PyNone, s1)).
  { unfold s1, key. rewrite <- Hmiss.
    now destruct (Cache.get s (cache_key pid) t_get). }
  assert (Hf : fetch_product_from_source price pid = Ok (PyDict product)).
  { unfold fetch_product_from_source. now rewrite Hp. }
  assert (Hw1 : w1 = mkApp (Cache.set s1 key (PyDict product) (Some 30) t_set)
                       (tr ++ [EvGet key; EvFetch pid;
                               EvSet key (PyDict product) (Some 30)])).
  { unfold w1. rewrite (get_product_miss price s tr pid t_get t_set s1 Hget).
    now rewrite Hf. }
  destruct (set_with_ttl_lifecycle_aux s1 key (PyDict product) 30 t_set t_get')
    as [Hlive Hdead].
  rewrite Hw1. simpl. split; intros Ht.
  - rewrite (get_product_hit price _ _ pid t_get' t_set' _ _ (Hlive ltac:(lia)));
      reflexivity.
  - rewrite (get_product_miss price _ _ pid t_get' t_set' _ (Hdead ltac:(lia))).
    rewrite Hf. simpl. do 2 f_equal.
    unfold Cache.set, Cache.delete. apply insert_delete_eq.
Qed.

Lemma product_cached_for_thirty_seconds_witness :
  fst (Cache.get Cache.init (cache_key 7) 0) = PyNone /\
  sample_price 7 = Ok (PyFloat (221 # 2)) /\
  31000000 <= 1000000 + 30000000 /\
  fst (get_product sample_price 7 31000000 32000000
         (snd (get_product sample_price 7 0 1000000 (mkApp Cache.init []))))
  = Ok (PyDict [("id", PyInt 7); ("name", PyStr "Product 7");
                ("price", PyFloat (221 # 2)); ("source", PyStr "database");
                ("from_cache", PyBool true)]%string).
Proof.
  split; [reflexivity|]. split; [reflexivity|]. split; [lia|].
  rewrite (proj1 (product_cached_for_thirty_seconds sample_price 7 Cache.init
                    [] (PyFloat (221 # 2)) 0 1000000 31000000 32000000
                    eq_refl eq_refl)); [reflexivity|lia].
Defined.



(** X9. However the application got to its state from boot, a response of
    [get_product] is the product of the requested identifier as the
    producer returns it, with the field [from_cache] added: the cache never
    serves the product of another identifier, nor an altered one. *)
Theorem get_product_returns_the_product (price : Z -> result pyval)
    (rs : list request) (pid t_get t_set : Z) (r : pyval) :
  fst (get_product price pid t_get t_set (serve price rs boot)) = Ok r ->
  exists p b,
    price pid = Ok p /\
    r = PyDict [("id", PyInt pid);
                ("name", PyStr ("Product " +:+ pretty pid));
                ("price", p);
                ("source", PyStr "database");
                ("from_cache", PyBool b)]%string.
Proof.
  intros H.
  pose proof (product_entries_serve price rs boot (product_entries_init price)) as Hs.
  destruct (serve price rs boot) as [s tr]. simpl in Hs.
  pose proof (get_product_response price s tr pid t_get t_set Hs) as Hr.
  unfold fetch_product_from_source in Hr.
  destruct (price pid) as [p|e'].
  - destruct Hr as [b Hr]. rewrite Hr in H. simpl in H.
    exists p, b. split; [reflexivity|]. now injection H as <-.
  - congruence.
Qed.

Lemma get_product_returns_the_product_witness :
  fst (get_product sample_price 2 5000000 6000000
         (serve sample_price [GetProduct 2 0 1000000; GetProduct 3 0 1000000] boot))
  = Ok (PyDict [("id", PyInt 2); ("name", PyStr "Product 2");
                ("price", PyFloat (103 # 1)); ("source", PyStr "database");
                ("from_cache", PyBool true)]%string) /\
  exists p b,
    sample_price 2 = Ok p /\
    PyDict [("id", PyInt 2); ("name", PyStr "Product 2");
            ("price", PyFloat (103 # 1)); ("source", PyStr "database");
            ("from_cache", PyBool true)]%string
    = PyDict [("id", PyInt 2);
              ("name", PyStr ("Product " +:+ pretty 2));
              ("price", p);
              ("source", PyStr "database");
              ("from_cache", PyBool b)]%string.
Proof.
  split; [reflexivity|].
  apply (get_product_returns_the_product sample_price
           [GetProduct 2 0 1000000; GetProduct 3 0 1000000] 2 5000000 6000000).
  reflexivity.
Defined.

Section EntriesFrom.

Variable price : Z -> result pyval.

Lemma entries_from_app rs rs' s :
  entries_from price rs s -> entries_from price (rs ++ rs') s.
Proof.
  intros Hs k v e Hk.
  destruct (Hs k v e Hk) as (pid & t_get & t_set & Hin & H).
  exists pid, t_get, t_set. split; [apply in_or_app; now left|exact H].
Qed.

Lemma entries_from_get rs s k now :
  entries_from price rs s -> entries_from price rs (snd (Cache.get s k now)).
Proof.
  intros Hs. destruct (get_store_cases s k now) as [-> | [-> _]]; [exact Hs|].
  intros k' v e. unfold Cache.delete. rewrite lookup_delete.
  case_decide; [discriminate|apply Hs].
Qed.

Lemma entries_from_handle rs r w :
  entries_from price rs (cache_instance w) ->
  entries_from price (rs ++ [r]) (cache_instance (snd (handle price r w))).
Proof.
  destruct w as [s tr]. simpl. intros Hs.
  destruct r as [pid t_get t_set|]; simpl.
  2:{ intros k v e Hk. unfold Cache.clear in Hk.
      now rewrite lookup_empty in Hk. }
  destruct (Cache.get s (cache_key pid) t_get) as [cached s1] eqn:Hget.
  assert (Hs1 : entries_from price (rs ++ [GetProduct pid t_get t_set]) s1).
  { apply entries_from_app.
    replace s1 with (snd (Cache.get s (cache_key pid) t_get))
      by now rewrite Hget.
    now apply entries_from_get. }
  destruct (is_not_none cached) eqn:Hnn.
  - rewrite (get_product_hit price s tr pid t_get t_set _ _ Hget Hnn). simpl.
    assert (s1 = s) as -> by (eapply get_value_keeps_store; eauto).
    now apply entries_from_app.
  - destruct cached; try discriminate.
    rewrite (get_product_miss price s tr pid t_get t_set s1 Hget).
    destruct (fetch_product_from_source price pid) as [product|e] eqn:Hf;
      simpl; [|exact Hs1].
    intros k v e. unfold Cache.set. rewrite lookup_insert.
    case_decide; [|apply Hs1]. intros [= <- <-]. subst k.
    exists pid, t_get, t_set. split; [|auto].
    apply in_or_app. right. now left.
Qed.

Lemma entries_from_serve rs : forall done w,
  entries_from price done (cache_instance w) ->
  entries_from price (done ++ rs) (cache_instance (serve price rs w)).
Proof.
  induction rs as [|r rs IH]; intros done w Hw; simpl.
  - now rewrite app_nil_r.
  - replace (done ++ r :: rs) with ((done ++ [r]) ++ rs)
      by now rewrite <- app_assoc.
    apply IH. now apply entries_from_handle.
Qed.

End EntriesFrom.

(** X10. Whatever requests the application has served since boot, every
    entry of its cache is the producer's product for some identifier,
    stored under the key of that identifier by one of the [get_product]
    requests served, and expires 30 seconds after the clock reading of that
    request's [cache.set]: nothing is cached for ever. *)
Theorem cached_entries_are_products (price : Z -> result pyval)
    (rs : list request) (k : string) (v : pyval) (e : option Z) :
  cache_instance (serve price rs boot) !! k = Some (v, e) ->
  exists pid t_get t_set p,
    In (GetProduct pid t_get t_set) rs /\
    k = cache_key pid /\
    price pid = Ok p /\
    v = PyDict [("id", PyInt pid);
                ("name", PyStr ("Product " +:+ pretty pid));
                ("price", p);
                ("source", PyStr "database")]%string /\
    e = Some (t_set + 30000000).
Proof.
  intros H.
  assert (Hinit : entries_from price [] (cache_instance boot)).
  { intros k' v' e' Hk. simpl in Hk. unfold Cache.init in Hk.
    now rewrite lookup_empty in Hk. }
  destruct (entries_from_serve price rs [] boot Hinit k v e H)
    as (pid & t_get & t_set & Hin & -> & Hf & ->).
  exists pid, t_get, t_set. unfold fetch_product_from_source in Hf.
  destruct (price pid) as [p|]; [|discriminate]. injection Hf as <-.
  exists p. repeat split; auto.
Qed.

Lemma cached_entries_are_products_witness :
  let product :=
    PyDict [("id", PyInt 2); ("name", PyStr "Product 2");
            ("price", PyFloat (103 # 1)); ("source", PyStr "database")]%string in
  let rs := [GetProduct 2 0 1000000; GetProduct 3 5 2000000] in
  cache_instance (serve sample_price rs boot) !! "product:2"
  = Some (product, Some 31000000) /\
  exists pid t_get t_set p,
    In (GetProduct pid t_get t_set) rs /\
    "product:2"%string = cache_key pid /\
    sample_price pid = Ok p /\
    product = PyDict [("id", PyInt pid);
                      ("name", PyStr ("Product " +:+ pretty pid));
                      ("price", p);
                      ("source", PyStr "database")]%string /\
    Some 31000000 = Some (t_set + 30000000).
Proof.
  intros product rs. split; [reflexivity|].
  apply (cached_entries_are_products sample_price rs
           "product:2" product (Some 31000000)).
  reflexivity.
Defined.

(** X11. [clear_cache] returns its confirmation and empties the cache,
    whatever it held: the next [get_product], for any identifier and at any
    clock reading, goes to the producer. *)
Theorem clear_cache_forces_refetch (price : Z -> result pyval) (w : app)
    (pid t_get t_set : Z) :
  clear_cache w
  = (Ok (PyDict [("detail"%string, PyStr "Cache cleared")]),
     mkApp Cache.init (trace w ++ [EvClear])) /\
  get_product price pid t_get t_set (snd (clear_cache w))
  = match fetch_product_from_source price pid with
    | Ok product =>
        (dict_unpack_with product "from_cache" (PyBool false),
         mkApp (Cache.set Cache.init (cache_key pid) product (Some 30) t_set)
               (trace w ++ [EvClear; EvGet (cache_key pid); EvFetch pid;
                            EvSet (cache_key pid) product (Some 30)]))
    | Raise e =>
        (Raise e,
         mkApp Cache.init
               (trace w ++ [EvClear; EvGet (cache_key pid); EvFetch pid]))
    end.
Proof.
  split; [reflexivity|]. simpl.
  rewrite (get_product_miss price Cache.init _ pid t_get t_set Cache.init)
    by (apply get_missing, lookup_empty).
  destruct (fetch_product_from_source price pid); now rewrite <- app_assoc.
Qed.

(** X12. [get_product] reads and writes the entry of its own key only:
    every other key of the cache, and so the entry of every other product,
    is left as it was. *)
Theorem get_product_touches_only_its_key (price : Z -> result pyval)
    (s : Cache.store) (tr : list event) (pid pid' t_get t_set : Z) (k : string) :
  let s' := cache_instance (snd (get_product price pid t_get t_set (mkApp s tr))) in
  (k <> cache_key pid -> s' !! k = s !! k) /\
  (pid' <> pid -> s' !! cache_key pid' = s !! cache_key pid').
Proof.
  intros s'.
  assert (H : forall k', k' <> cache_key pid -> s' !! k' = s !! k').
  { intros k' Hk. unfold s'.
    destruct (Cache.get s (cache_key pid) t_get) as [cached s1] eqn:Hget.
    assert (Hs1 : s1 !! k' = s !! k').
    { replace s1 with (snd (Cache.get s (cache_key pid) t_get))
        by now rewrite Hget.
      destruct (get_store_cases s (cache_key pid) t_get) as [-> | [-> _]];
        [reflexivity|]. apply delete_lookup_ne. congruence. }
    destruct (is_not_none cached) eqn:Hnn.
    - now rewrite (get_product_hit price s tr pid t_get t_set _ _ Hget Hnn).
    - destruct cached; try discriminate.
      rewrite (get_product_miss price s tr pid t_get t_set s1 Hget).
      destruct (fetch_product_from_source price pid); simpl; [|exact Hs1].
      rewrite set_lookup_ne by congruence. exact Hs1. }
  split; [apply H|]. intros Hne. apply H. intros Hk.
  now apply cache_key_inj in Hk.
Qed.

Lemma get_product_touches_only_its_key_witness :
  let s := cache_instance (serve sample_price [GetProduct 2 0 1000000] boot) in
  3 <> 2 /\
  cache_instance (snd (get_product sample_price 2 40000000 41000000 (mkApp s [])))
    !! cache_key 3
  = s !! cache_key 3.
Proof.
  intros s. split; [lia|].
  apply (proj2 (get_product_touches_only_its_key sample_price s [] 2 3
                  40000000 41000000 "x")). lia.
Defined.

(** ** The rate limiter over sequences of requests *)

Section LimiterRuns.

Import RateLimiter.

Implicit Types (self : RateLimiter.t) (ip : string) (now count ws : Z).

(** A rejection leaves the limiter as it was, and is the only exception. *)
Lemma check_raise_inv self ip now e :
  fst (check ip now self) = Raise e ->
  e = HTTPException 429 "Rate limit exceeded" /\
  snd (check ip now self) = self /\
  exists count ws,
    requests self !! ip = Some (count, ws) /\
    now - ws < window self /\ count >= limit self.
Proof.
  unfold check. destruct (requests self !! ip) as [[count ws]|] eqn:Hip;
    [|discriminate].
  destruct (now - ws >=? window self) eqn:E; [discriminate|].
  destruct (count >=? limit self) eqn:E'; [|discriminate].
  simpl. intros [= <-]. split; [reflexivity|]. split; [reflexivity|].
  exists count, ws. split; [reflexivity|].
  rewrite Z.geb_leb in E, E'. apply Z.leb_gt in E. apply Z.leb_le in E'. lia.
Qed.

Lemma checks_settings rs : forall self,
  limit (checks rs self) = limit self /\ window (checks rs self) = window self.
Proof.
  induction rs as [|[ip now] rs IH]; intros self; simpl; [auto|].
  destruct (IH (snd (check ip now self))) as [-> ->].
  destruct (check_frame self ip now) as (-> & -> & _). auto.
Qed.

Lemma counts_bounded_check self ip now :
  1 <= limit self -> counts_bounded self ->
  counts_bounded (snd (check ip now self)).
Proof.
  intros Hlim Hb. unfold check.
  destruct (requests self !! ip) as [[count ws]|] eqn:Hip.
  - destruct (now - ws >=? window self);
      [|destruct (count >=? limit self) eqn:E]; simpl; auto;
      intros ip' c w; simpl; rewrite lookup_insert; case_decide;
      try apply Hb; intros [= <- <-]; [lia|].
    rewrite Z.geb_leb in E. apply Z.leb_gt in E.
    specialize (Hb ip count ws Hip). lia.
  - intros ip' c w; simpl. rewrite lookup_insert. case_decide; [|apply Hb].
    intros [= <- <-]. lia.
Qed.

Lemma pings_cons ip now rs self :
  pings ((ip, now) :: rs) self
  = match fst (check ip now self) with
    | Ok _ => Ok ping
    | Raise e => Raise e
    end :: pings rs (snd (check ip now self)).
Proof.
  simpl. unfold rate_limit_middleware, bind, on_fst, on_snd, ret. simpl.
  destruct (check ip now self) as [[[]|e] self']; reflexivity.
Qed.

End LimiterRuns.

(** X13. [check] raises in two cases only.  When the request has no
    client, [request.client.host] raises [AttributeError].  Otherwise it
    raises exactly when the client has an entry whose window is live and
    whose count has reached the limit, and then [HTTPException 429].  In
    both cases the limiter is left untouched.  So the first request of a
    client, and the first one after its window has elapsed, pass whatever
    the limit is, even a limit of zero. *)
Theorem check_rejects_exactly (self : RateLimiter.t) (client : option string)
    (now : Z) :
  ((exists e, fst (RateLimiter.check_request client now self) = Raise e) <->
   (client = None \/
    exists ip count ws,
      client = Some ip /\
      RateLimiter.requests self !! ip = Some (count, ws) /\
      now - ws < RateLimiter.window self /\
      count >= RateLimiter.limit self)) /\
  (forall e, fst (RateLimiter.check_request client now self) = Raise e ->
     e = match client with
         | Some _ => HTTPException 429 "Rate limit exceeded"
         | None => AttributeError "'NoneType' object has no attribute 'host'"
         end /\
     snd (RateLimiter.check_request client now self) = self).
Proof.
  destruct client as [ip|]; simpl.
  - split; [split|].
    + intros [e He].
      destruct (check_raise_inv self ip now e He) as (_ & _ & c & ws & H).
      right. exists ip, c, ws. auto.
    + intros [H | (ip' & count & ws & [= <-] & Hip & Hlive & Hc)];
        [discriminate|].
      rewrite (check_reject self ip now count ws Hip Hlive Hc). eauto.
    + intros e He.
      destruct (check_raise_inv self ip now e He) as (H1 & H2 & _). auto.
  - split; [split|].
    + intros _. now left.
    + intros _. eexists. reflexivity.
    + intros e [= <-]. auto.
Qed.

(** X14. With a limit of at least one, whatever requests a fresh limiter
    has seen, every counter of its table lies between one and the limit. *)
Theorem counter_stays_within_limit (lim secs : Z) (rs : list (string * Z))
    (ip : string) (count ws : Z) :
  1 <= lim ->
  RateLimiter.requests (checks rs (RateLimiter.init lim secs)) !! ip
  = Some (count, ws) ->
  1 <= count <= lim.
Proof.
  intros Hlim.
  assert (H : forall rs' self,
             RateLimiter.limit self = lim -> counts_bounded self ->
             counts_bounded (checks rs' self)).
  { induction rs' as [|[ip' now] rs' IH]; intros self Hl Hb; simpl; [exact Hb|].
    apply IH.
    - destruct (check_frame self ip' now) as (-> & _). exact Hl.
    - apply counts_bounded_check; [lia|exact Hb]. }
  intros Hip.
  assert (Hb : counts_bounded (checks rs (RateLimiter.init lim secs))).
  { apply H; [reflexivity|]. intros ip' c w Hl. simpl in Hl.
    now rewrite lookup_empty in Hl. }
  specialize (Hb ip count ws Hip).
  destruct (checks_settings rs (RateLimiter.init lim secs)) as [Hl _].
  rewrite Hl in Hb. exact Hb.
Qed.

Lemma counter_stays_within_limit_witness :
  1 <= 2 /\
  RateLimiter.requests
    (checks [("a"%string, 0); ("a"%string, 1); ("a"%string, 2); ("a"%string, 3)]
            (RateLimiter.init 2 60)) !! "a"
  = Some (2, 0) /\
  1 <= 2 <= 2.
Proof.
  split; [lia|]. split; [reflexivity|].
  apply (counter_stays_within_limit 2 60
           [("a"%string, 0); ("a"%string, 1); ("a"%string, 2); ("a"%string, 3)]
           "a" 2 0); [lia|reflexivity].
Defined.

Lemma pings_live_window (ip : string) (t0 : Z) (ts : list Z) :
  forall (self : RateLimiter.t) (c : Z),
  RateLimiter.requests self !! ip = Some (c, t0) ->
  Forall (fun t => t - t0 < RateLimiter.window self) ts ->
  pings (map (pair ip) ts) self
  = imap (fun j _ =>
            if c + Z.of_nat j <? RateLimiter.limit self then Ok ping
            else Raise (HTTPException 429 "Rate limit exceeded")) ts.
Proof.
  induction ts as [|t ts IH]; intros self c Hip Hall; [reflexivity|].
  inversion Hall as [|? ? Ht Hts]; subst.
  change (map (pair ip) (t :: ts)) with ((ip, t) :: map (pair ip) ts).
  rewrite pings_cons. simpl imap. rewrite Z.add_0_r.
  destruct (Z_lt_ge_dec c (RateLimiter.limit self)) as [Hlt|Hge].
  - rewrite (check_increment self ip t c t0 Hip Ht Hlt). simpl fst. simpl snd.
    rewrite (proj2 (Z.ltb_lt _ _) Hlt). f_equal.
    rewrite (IH _ (c + 1)); [|simpl; apply lookup_insert_eq|exact Hts].
    apply imap_ext. intros j x _. simpl.
    replace (c + 1 + Z.of_nat j) with (c + Z.of_nat (S j)) by lia. reflexivity.
  - rewrite (check_reject self ip t c t0 Hip Ht Hge). simpl fst. simpl snd.
    rewrite (proj2 (Z.ltb_ge _ _)) by lia. f_equal.
    rewrite (IH self c Hip Hts).
    apply imap_ext. intros j x _. simpl.
    rewrite !(proj2 (Z.ltb_ge _ _)) by lia. reflexivity.
Qed.

(** X15. Behind the middleware, a client that is new to the limiter gets
    [pong] for its first request at clock reading [t0], and, for the
    requests that follow at readings within the window that [t0] opened,
    [pong] for those that bring the count to at most the limit and
    [HTTPException 429] for all the others. *)
Theorem window_admits_limit_requests (self : RateLimiter.t) (ip : string)
    (t0 : Z) (ts : list Z) :
  RateLimiter.requests self !! ip = None ->
  Forall (fun t => t - t0 < RateLimiter.window self) ts ->
  pings ((ip, t0) :: map (pair ip) ts) self
  = Ok ping ::
    imap (fun j _ =>
            if 1 + Z.of_nat j <? RateLimiter.limit self then Ok ping
            else Raise (HTTPException 429 "Rate limit exceeded")) ts.
Proof.
  intros Hnew Hall. rewrite pings_cons.
  rewrite (check_first_request self ip t0 Hnew). simpl fst. simpl snd. f_equal.
  rewrite (pings_live_window ip t0 ts _ 1);
    [reflexivity|simpl; apply lookup_insert_eq|exact Hall].
Qed.

Lemma window_admits_limit_requests_witness :
  RateLimiter.requests (RateLimiter.init 3 60) !! "a" = None /\
  Forall (fun t => t - 0 < RateLimiter.window (RateLimiter.init 3 60))
         [1; 2; 59999999] /\
  pings [("a"%string, 0); ("a"%string, 1); ("a"%string, 2); ("a"%string, 59999999)]
        (RateLimiter.init 3 60)
  = [Ok ping; Ok ping; Ok ping;
     Raise (HTTPException 429 "Rate limit exceeded")].
Proof.
  split; [reflexivity|].
  split; [repeat (constructor; [reflexivity|]); constructor|].
  apply (window_admits_limit_requests (RateLimiter.init 3 60) "a" 0
           [1; 2; 59999999]);
    [reflexivity|repeat (constructor; [reflexivity|]); constructor].
Defined.

(** X16. The middleware lets a request through to the handler chain only
    when [check] passes.  On a rejection the exception of [check] is the
    outcome and the handlers' state is untouched; otherwise the outcome and
    the handlers' state are those of the handler chain. *)
Theorem middleware_gates_the_handlers {S : Type} (ip : string) (now : Z)
    (call_next : M S pyval) (self : RateLimiter.t) (d : S) :
  rate_limit_middleware ip now call_next (self, d)
  = match fst (RateLimiter.check ip now self) with
    | Ok _ =>
        (fst (call_next d), (snd (RateLimiter.check ip now self), snd (call_next d)))
    | Raise e => (Raise e, (self, d))
    end.
Proof.
  pose proof (check_raise_inv self ip now) as Hinv.
  unfold rate_limit_middleware, bind, on_fst, on_snd, ret. simpl.
  destruct (RateLimiter.check ip now self) as [[[]|e] self']; simpl in *.
  - destruct (call_next d) as [[r|e] d']; reflexivity.
  - destruct (Hinv e eq_refl) as (_ & -> & _). reflexivity.
Qed.

(** X17. The counters are per client: requests of other clients never
    change the entry of a client, and no request changes the limit or the
    window. *)
Theorem clients_are_independent (self : RateLimiter.t) (ip : string)
    (rs : list (string * Z)) :
  Forall (fun r => fst r <> ip) rs ->
  RateLimiter.requests (checks rs self) !! ip = RateLimiter.requests self !! ip /\
  RateLimiter.limit (checks rs self) = RateLimiter.limit self /\
  RateLimiter.window (checks rs self) = RateLimiter.window self.
Proof.
  intros Hall. split; [|apply checks_settings].
  revert self. induction Hall as [|[ip' now] rs Hne _ IH]; intros self;
    [reflexivity|].
  simpl. rewrite IH.
  destruct (check_frame self ip' now) as (_ & _ & H). apply H.
  simpl in Hne. congruence.
Qed.

Lemma clients_are_independent_witness :
  let self := checks [("a"%string, 0)] (RateLimiter.init 1 60) in
  Forall (fun r : string * Z => fst r <> "a"%string)
         [("b"%string, 1); ("c"%string, 2); ("b"%string, 3)] /\
  RateLimiter.requests
    (checks [("b"%string, 1); ("c"%string, 2); ("b"%string, 3)] self) !! "a"
  = RateLimiter.requests self !! "a".
Proof.
  intros self.
  split; [repeat (constructor; [discriminate|]); constructor|].
  apply (clients_are_independent self "a"
           [("b"%string, 1); ("c"%string, 2); ("b"%string, 3)]).
  repeat (constructor; [discriminate|]); constructor.
Defined.

(** ** The notification log *)

(** X18. Nothing in the module writes [notification_log]: a [POST /notify]
    leaves it as it is whatever the handler is given, even when the job is
    queued and run, since the job only prints.  With the requests the
    application receives, no job is queued either, so after any sequence of
    requests the state is the initial one and [GET /notifications] returns
    the log the process started with. *)
Theorem notification_log_is_never_written (request : pyval)
    (rs : list notifier_request) (w : notifier) :
  notification_log (snd (notify request w)) = notification_log w /\
  notifier_serve rs w = w /\
  fst (get_notification_log (notifier_serve rs w)) = Ok (notification_log w).
Proof.
  split.
  - unfold notify. destruct (email request []) as [[r|e] tasks]; reflexivity.
  - assert (H : notifier_serve rs w = w).
    { induction rs as [|[e m|] rs IH]; simpl; auto. }
    rewrite H. split; reflexivity.
Qed.
